(** * Struct-level validation: ReportError and ReportValidationErrors

    A shallow embedding of [struct_level.go] (package validator): the
    struct-level capability surface implemented by [*validate].  The Go
    code mutates the [validate] object and the [fieldError] records it is
    handed through pointers, and it may panic; both are modelled
    explicitly, by a store of [fieldError] records addressed by location
    and a state-and-panic monad in which the store survives a panic. *)

From Stdlib Require Import String.
From stdpp Require Import base option list strings.

Open Scope string_scope.
Open Scope list_scope.

(** ** The fragment of Go's [reflect] package the file uses *)

Module reflect.

(** [reflect.Kind], in the order of the Go declaration. *)
Inductive Kind : Set :=
| Invalid | Bool
| Int | Int8 | Int16 | Int32 | Int64
| Uint | Uint8 | Uint16 | Uint32 | Uint64 | Uintptr
| Float32 | Float64 | Complex64 | Complex128
| Array | Chan | Func | Interface | Map | Ptr | Slice
| String | Struct | UnsafePointer.

(** [reflect.Type]: a type is known by its name and its kind. *)
Record rtype : Set := { type_name : string; type_kind : Kind }.

(** [reflect.Value].  [zero_Value] is Go's [reflect.Value{}], the only
    value of kind [Invalid].  A pointer is nil or carries its target.
    A [custom_Value] is a value of a type for which the engine may hold
    an unwrapping function, together with what that function yields on
    it. *)
Inductive Value : Set :=
| zero_Value
| nil_ptr_Value (t : rtype)
| ptr_Value (t : rtype) (elem : Value)
| custom_Value (t : rtype) (data : string) (unwrapped : Value)
| data_Value (t : rtype) (data : string).

(** Go's [interface{}]: [None] is the nil interface. *)
Definition any : Set := option Value.

(** [reflect.ValueOf(i)]: the zero Value for a nil interface. *)
Definition ValueOf (i : any) : Value :=
  match i with
  | None => zero_Value
  | Some x => x
  end.

Definition Value_Kind (x : Value) : Kind :=
  match x with
  | zero_Value => Invalid
  | nil_ptr_Value _ | ptr_Value _ _ => Ptr
  | custom_Value t _ _ => type_kind t
  | data_Value t _ => type_kind t
  end.

#[global] Instance Kind_eq_dec : EqDecision Kind.
Proof. solve_decision. Defined.

Definition Value_IsValid (x : Value) : bool :=
  match x with
  | zero_Value => false
  | _ => true
  end.

End reflect.

(** ** Panics and the state monad *)

(** The run-time panics the code of this file can raise. *)
Inductive panic : Set :=
| interface_conversion  (* a failed type assertion [x.(T)] *)
| nil_dereference       (* invalid memory address or nil pointer dereference *)
| zero_Value_call.      (* reflect: call of a Value method on the zero Value *)

Inductive result (A : Type) : Type :=
| Ok (a : A)
| Panic (p : panic).

Arguments Ok {A} a.
Arguments Panic {A} p.

(** [v.Interface()] and [v.Type()] panic on the zero Value.  ([Interface]
    also panics on a Value obtained through an unexported struct field;
    the Values met here come from [reflect.ValueOf] and carry no such
    mark.) *)
Definition Value_Interface (x : reflect.Value) : result reflect.any :=
  match x with
  | reflect.zero_Value => Panic zero_Value_call
  | _ => Ok (Some x)
  end.

Definition Value_Type (x : reflect.Value) : result reflect.rtype :=
  match x with
  | reflect.zero_Value => Panic zero_Value_call
  | reflect.nil_ptr_Value t | reflect.ptr_Value t _ => Ok t
  | reflect.custom_Value t _ _ => Ok t
  | reflect.data_Value t _ => Ok t
  end.

(** ** Data model *)

(** A location in the store of [fieldError] records. *)
Abbreviation loc := nat.

(** The [fieldError] struct, with the fields the file reads and writes.
    [value] and [typ] are an [interface{}] and a [reflect.Type]: unset
    means nil, [None]. *)
Record fieldError : Set := {
  tag : string;
  actualTag : string;
  ns : string;
  structNs : string;
  field : string;
  structField : string;
  value : reflect.any;
  param : string;
  kind : reflect.Kind;
  typ : option reflect.rtype
}.

(** A value of the [FieldError] interface: the nil interface, a
    [*fieldError] (possibly a nil pointer), or a value of some other type
    that implements the interface. *)
Inductive FieldError : Set :=
| nil_FieldError
| ptr_fieldError (p : option loc)
| other_FieldError (impl : string).

(** [type ValidationErrors []FieldError] *)
Definition ValidationErrors : Set := list FieldError.

(** The engine handle [*Validate].  Of the engine only the registry of
    custom types matters here: [customTypes t] tells whether an
    unwrapping function is registered for [t]. *)
Record Validate : Set := { customTypes : reflect.rtype -> bool }.

(** The [validate] struct: the per-run context.  [slNs] and [slStructNs]
    are byte slices; [append(v.slNs, s...)] leaves the bytes seen through
    [v.slNs] as they are and yields the concatenation, which is all the
    code observes of them.  The two slices are taken not to share a
    backing array, so that the second [append] of [ReportError] does not
    write over the result of the first. *)
Record validate : Set := {
  v : Validate;
  top : reflect.Value;
  slflParent : reflect.Value;
  slCurrent : reflect.Value;
  slNs : string;
  slStructNs : string;
  errs : ValidationErrors
}.

(** The state of a run: the store of [fieldError] records and the
    receiver. A [*fieldError] is an index into [mem]. *)
Record state : Set := { mem : list fieldError; self : validate }.

Definition M (A : Type) : Type := state -> result A * state.

Definition ret {A} (a : A) : M A := fun s => (Ok a, s).

Definition bind {A B} (m : M A) (k : A -> M B) : M B :=
  fun s =>
    match m s with
    | (Ok a, s') => k a s'
    | (Panic p, s') => (Panic p, s')
    end.

Declare Scope go_scope.
Delimit Scope go_scope with go.
Notation "x <- m ;; k" := (bind m (fun x => k))
  (at level 100, m at next level, right associativity) : go_scope.
Notation "m ;; k" := (bind m (fun _ => k))
  (at level 100, right associativity) : go_scope.
Open Scope go_scope.

(** A pure computation that may panic. *)
Definition lift {A} (r : result A) : M A := fun s => (r, s).

Definition get_self : M validate := fun s => (Ok (self s), s).

Definition set_errs (es : ValidationErrors) (vd : validate) : validate :=
  {| v := v vd; top := top vd; slflParent := slflParent vd;
     slCurrent := slCurrent vd; slNs := slNs vd; slStructNs := slStructNs vd;
     errs := es |}.

(** [v.errs = append(v.errs, e)] *)
Definition append_errs (e : FieldError) : M unit :=
  fun s => (Ok tt, {| mem := mem s; self := set_errs (errs (self s) ++ [e]) (self s) |}).

(** [&fieldError{...}]: a record at a location no pointer holds yet. *)
Definition new (r : fieldError) : M loc :=
  fun s => (Ok (length (mem s)), {| mem := mem s ++ [r]; self := self s |}).

(** Reading through a [*fieldError]; nil panics. *)
Definition load (p : option loc) : M fieldError :=
  fun s =>
    match p with
    | None => (Panic nil_dereference, s)
    | Some l =>
        match mem s !! l with
        | Some r => (Ok r, s)
        | None => (Panic nil_dereference, s)
        end
    end.

(** Writing through a [*fieldError]. *)
Definition store (p : option loc) (r : fieldError) : M unit :=
  fun s =>
    match p with
    | None => (Panic nil_dereference, s)
    | Some l =>
        match mem s !! l with
        | Some _ => (Ok tt, {| mem := <[l := r]> (mem s); self := self s |})
        | None => (Panic nil_dereference, s)
        end
    end.

Definition set_ns (x : string) (r : fieldError) : fieldError :=
  {| tag := tag r; actualTag := actualTag r; ns := x; structNs := structNs r;
     field := field r; structField := structField r; value := value r;
     param := param r; kind := kind r; typ := typ r |}.

Definition set_structNs (x : string) (r : fieldError) : fieldError :=
  {| tag := tag r; actualTag := actualTag r; ns := ns r; structNs := x;
     field := field r; structField := structField r; value := value r;
     param := param r; kind := kind r; typ := typ r |}.

(** The type assertion of [errs[i]] to a pointer to [fieldError]. *)
Definition assert_fieldError (x : FieldError) : M (option loc) :=
  match x with
  | ptr_fieldError p => ret p
  | nil_FieldError | other_FieldError _ => lift (Panic interface_conversion)
  end.

(** ** The operations of [struct_level.go] *)

Section StructLevel.

(** [extractTypeInternal] is a method of [validate] defined in another
    file of the package; the operations below take it as given.  It
    reads the receiver and may panic. *)
Variable extractTypeInternal :
  validate -> reflect.Value -> bool -> result (reflect.Value * reflect.Kind * bool).

Definition Top : M reflect.Value := vd <- get_self ;; ret (top vd).

Definition Parent : M reflect.Value := vd <- get_self ;; ret (slflParent vd).

Definition Current : M reflect.Value := vd <- get_self ;; ret (slCurrent vd).

Definition Validator : M Validate := vd <- get_self ;; ret (v vd).

Definition ExtractType (field : reflect.Value)
  : M (reflect.Value * reflect.Kind * bool) :=
  vd <- get_self ;; lift (extractTypeInternal vd field false).

Definition ReportError (field : reflect.any) (fieldName altName tag : string)
  : M unit :=
  vd <- get_self ;;
  r <- lift (extractTypeInternal vd (reflect.ValueOf field) false) ;;
  let '(fv, kind, _) := r in
  let altName := if (String.length altName =? 0)%nat then fieldName else altName in
  let ns := slNs vd +:+ fieldName in
  let nsActual := slStructNs vd +:+ altName in
  match kind with
  | reflect.Invalid =>
      p <- new {| tag := tag; actualTag := tag;
                  ns := ns; structNs := nsActual;
                  field := fieldName; structField := altName;
                  value := None; param := "";
                  kind := kind; typ := None |} ;;
      append_errs (ptr_fieldError (Some p))
  | _ =>
      val <- lift (Value_Interface fv) ;;
      ty <- lift (Value_Type fv) ;;
      p <- new {| tag := tag; actualTag := tag;
                  ns := ns; structNs := nsActual;
                  field := fieldName; structField := altName;
                  value := val; param := "";
                  kind := kind; typ := Some ty |} ;;
      append_errs (ptr_fieldError (Some p))
  end.

(** The body of the loop of [ReportValidationErrors], for [errs[i] = x].
    Neither relative namespace occurs in it. *)
Definition merge_one (x : FieldError) : M unit :=
  err <- assert_fieldError x ;;
  vd <- get_self ;;
  r <- load err ;;
  store err (set_ns ((slNs vd +:+ ns r) +:+ field r) r) ;;
  vd <- get_self ;;
  r <- load err ;;
  store err (set_structNs ((slStructNs vd +:+ structNs r) +:+ structField r) r) ;;
  append_errs (ptr_fieldError err).

(** [for i := 0; i < len(errs); i++ { ... }] *)
Fixpoint merge_all (batch : ValidationErrors) : M unit :=
  match batch with
  | [] => ret tt
  | x :: rest => merge_one x ;; merge_all rest
  end.

Definition ReportValidationErrors
    (relativeNamespace relativeActualNamespace : string)
    (errs : ValidationErrors) : M unit :=
  merge_all errs.

(** A call of one of the two reporting operations, and a sequence of
    them as a callback makes it. *)
Inductive call : Set :=
| call_ReportError (field : reflect.any) (fieldName altName tag : string)
| call_ReportValidationErrors
    (relativeNamespace relativeActualNamespace : string)
    (batch : ValidationErrors).

Definition do_call (c : call) : M unit :=
  match c with
  | call_ReportError f n a t => ReportError f n a t
  | call_ReportValidationErrors rn ran b => ReportValidationErrors rn ran b
  end.

Fixpoint do_calls (cs : list call) : M unit :=
  match cs with
  | [] => ret tt
  | c :: rest => do_call c ;; do_calls rest
  end.

End StructLevel.

(** ** [extractTypeInternal], from its description *)

Module Spec.

(** Modelled from the spec: [extractTypeInternal] is not in
    [struct_level.go].  The description of [ExtractType] has it
    dereference through pointers and through any registered custom-type
    unwrapping and return the dereferenced value, its kind and whether
    the original value was a pointer; a nil pointer yields kind
    [Invalid] and a zero value; a value of a concrete kind is returned
    as it is, with its kind. *)
Fixpoint extractTypeInternal (vd : validate) (current : reflect.Value)
    (nullable : bool) : result (reflect.Value * reflect.Kind * bool) :=
  match current with
  | reflect.zero_Value => Ok (reflect.zero_Value, reflect.Invalid, nullable)
  | reflect.nil_ptr_Value _ => Ok (reflect.zero_Value, reflect.Invalid, true)
  | reflect.ptr_Value _ elem => extractTypeInternal vd elem true
  | reflect.custom_Value t _ unwrapped =>
      if customTypes (v vd) t
      then extractTypeInternal vd unwrapped nullable
      else Ok (current, reflect.Value_Kind current, nullable)
  | reflect.data_Value _ _ => Ok (current, reflect.Value_Kind current, nullable)
  end.

(** A nil pointer, or a pointer that leads to one through any number
    of further pointers. *)
Fixpoint leads_to_nil (x : reflect.Value) : bool :=
  match x with
  | reflect.nil_ptr_Value _ => true
  | reflect.ptr_Value _ elem => leads_to_nil elem
  | _ => false
  end.

End Spec.

(** ** Vocabulary of the statements *)

(** The position and namespace fields of the context, all but [errs]. *)
Definition same_context (a b : validate) : Prop :=
  v a = v b /\ top a = top b /\ slflParent a = slflParent b /\
  slCurrent a = slCurrent b /\ slNs a = slNs b /\ slStructNs a = slStructNs b.

(** [x] is a non-nil [*fieldError] that points to a record of the store. *)
Definition is_record (m : list fieldError) (x : FieldError) : bool :=
  match x with
  | ptr_fieldError (Some l) => (l <? length m)%nat
  | _ => false
  end.

(** The batch made of the pointers to the locations [ls]. *)
Definition pointers (ls : list loc) : ValidationErrors :=
  (fun l => ptr_fieldError (Some l)) <$> ls.

(** What one pass of the loop of [ReportValidationErrors] makes of a
    record, in a context with namespaces [cur] and [curActual]. *)
Definition spliced (cur curActual : string) (r : fieldError) : fieldError :=
  set_structNs ((curActual +:+ structNs r) +:+ structField r)
    (set_ns ((cur +:+ ns r) +:+ field r) r).

(** The store after the loop has passed over the pointers to [ls], one
    after the other. *)
Definition merged (cur curActual : string) (ls : list loc)
    (m : list fieldError) : list fieldError :=
  foldl (fun m' l => alter (spliced cur curActual) l m') m ls.

(** The locations a call hands to [ReportValidationErrors]. *)
Definition call_locs (c : call) : list loc :=
  match c with
  | call_ReportError _ _ _ _ => []
  | call_ReportValidationErrors _ _ batch =>
      omap (fun x => match x with
                     | ptr_fieldError p => p
                     | _ => None
                     end) batch
  end.

(** The panic of the loop body on an element that is not a pointer to a
    record: the type assertion fails on the nil interface and on a value
    of another type; a nil [*fieldError] passes it and fails at the read
    of [err.ns]. *)
Definition panic_of (x : FieldError) : panic :=
  match x with
  | ptr_fieldError _ => nil_dereference
  | nil_FieldError | other_FieldError _ => interface_conversion
  end.

(** Every entry of [errs] is a pointer to a record of the store. *)
Definition well_formed (st : state) : bool :=
  forallb (is_record (mem st)) (errs (self st)).

(** [s] starts with [p]. *)
Definition under (p s : string) : Prop := exists t, s = p +:+ t.

(** Every entry of [errs] is a pointer to a record whose two namespaces
    start with those of the context. *)
Definition namespaced (st : state) : Prop :=
  Forall (fun x =>
            match x with
            | ptr_fieldError (Some l) =>
                match mem st !! l with
                | Some r => under (slNs (self st)) (ns r) /\
                            under (slStructNs (self st)) (structNs r)
                | None => False
                end
            | _ => False
            end) (errs (self st)).

(** The number of entries a call appends when it returns, and the number
    of records it allocates. *)
Definition call_size (c : call) : nat :=
  match c with
  | call_ReportError _ _ _ _ => 1
  | call_ReportValidationErrors _ _ batch => length batch
  end.

Definition call_allocs (c : call) : nat :=
  match c with
  | call_ReportError _ _ _ _ => 1
  | call_ReportValidationErrors _ _ _ => 0
  end.

(** ** Sample runs *)

(** An engine with no custom type registered. *)
Definition engine : Validate := {| customTypes := fun _ => false |}.

Definition string_type : reflect.rtype :=
  {| reflect.type_name := "string"; reflect.type_kind := reflect.String |}.

Definition order_type : reflect.rtype :=
  {| reflect.type_name := "Order"; reflect.type_kind := reflect.Struct |}.

Definition order_value : reflect.Value := reflect.data_Value order_type "Order{}".

(** The context of a callback on an [Order], with namespaces [cur] and
    [curActual] and nothing reported yet. *)
Definition context_at (cur curActual : string) : validate :=
  {| v := engine; top := order_value; slflParent := order_value;
     slCurrent := order_value; slNs := cur; slStructNs := curActual;
     errs := [] |}.

(** An error of a nested validation: field [Email] at the root of the
    nested value. *)
Definition email_error : fieldError :=
  {| tag := "email"; actualTag := "email"; ns := ""; structNs := "";
     field := "Email"; structField := "Email"; value := None; param := "";
     kind := reflect.String; typ := Some string_type |}.

Definition phone_error : fieldError :=
  {| tag := "e164"; actualTag := "e164"; ns := ""; structNs := "";
     field := "Phone"; structField := "Phone"; value := None; param := "";
     kind := reflect.String; typ := Some string_type |}.

(** The callback on [Order] holds the two nested errors at locations 0
    and 1. *)
Definition order_state : state :=
  {| mem := [email_error; phone_error]; self := context_at "Order." "Order." |}.

(** A pointer to a string, as a callback hands it to [ReportError]. *)
Definition name_pointer : reflect.Value :=
  reflect.ptr_Value
    {| reflect.type_name := "*string"; reflect.type_kind := reflect.Ptr |}
    (reflect.data_Value string_type "Joe").

(** ** Properties *)

Section Properties.

Variable eti :
  validate -> reflect.Value -> bool -> result (reflect.Value * reflect.Kind * bool).

Implicit Types (st : state) (batch : ValidationErrors) (x : FieldError).
Implicit Types (l : loc) (r : fieldError) (s : string).

Lemma same_context_refl (a : validate) : same_context a a.
Proof. by repeat split. Qed.

Lemma same_context_set_errs (es : ValidationErrors) (a : validate) :
  same_context a (set_errs es a).
Proof. by repeat split. Qed.

Lemma same_context_trans (a b c : validate) :
  same_context a b -> same_context b c -> same_context a c.
Proof.
  unfold same_context. intros (?&?&?&?&?&?) (?&?&?&?&?&?).
  repeat split; congruence.
Qed.

(** *** One call of [ReportError] *)

(** What [ReportError] does when the extraction returns [(fv, k, nb)]
    and [fv] can be read unless [k] is [Invalid]. *)
Lemma ReportError_Ok st (f : reflect.any) (fieldName altName tg : string)
    (fv : reflect.Value) (k : reflect.Kind) (nb : bool) :
  eti (self st) (reflect.ValueOf f) false = Ok (fv, k, nb) ->
  k = reflect.Invalid \/ reflect.Value_IsValid fv = true ->
  exists e,
    ReportError eti f fieldName altName tg st =
      (Ok tt, {| mem := mem st ++ [e];
                 self := set_errs (errs (self st) ++
                                   [ptr_fieldError (Some (length (mem st)))])
                                  (self st) |}) /\
    tag e = tg /\ actualTag e = tg /\ param e = "" /\ kind e = k /\
    ns e = slNs (self st) +:+ fieldName /\
    field e = fieldName /\
    structField e = (if (String.length altName =? 0)%nat then fieldName else altName) /\
    structNs e = slStructNs (self st) +:+ structField e /\
    (k = reflect.Invalid -> value e = None /\ typ e = None).
Proof.
  intros Hx Hk. unfold ReportError, bind, get_self, lift. simpl. rewrite Hx.
  destruct (decide (k = reflect.Invalid)) as [->|Hne].
  - simpl. eexists. split; [reflexivity|]. by repeat split.
  - destruct Hk as [?|Hfv]; [done|].
    assert (exists a t, Value_Interface fv = Ok a /\ Value_Type fv = Ok t)
      as (a & t & Ha & Ht).
    { destruct fv; simpl in *; try discriminate; eauto. }
    destruct k; try done; simpl; rewrite Ha, Ht; simpl;
      (eexists; split; [reflexivity|]; by repeat split).
Qed.

(** Whatever happens, [ReportError] leaves the context as it is, adds
    at the end of [errs] and at the end of the store. *)
Lemma ReportError_frame st (f : reflect.any) (fieldName altName tg : string) :
  let st' := (ReportError eti f fieldName altName tg st).2 in
  same_context (self st) (self st') /\
  errs (self st) `prefix_of` errs (self st') /\
  mem st `prefix_of` mem st'.
Proof.
  unfold ReportError, bind, get_self, lift. simpl.
  destruct (eti _ _ _) as [[[fv k] nb]|p]; simpl;
    [|by split; [apply same_context_refl|]].
  destruct (decide (k = reflect.Invalid)) as [->|Hne].
  - simpl. split; [apply same_context_set_errs|].
    split; by apply prefix_app_r.
  - destruct (Value_Interface fv) as [a|p] eqn:Ha, (Value_Type fv) as [t|p'] eqn:Ht;
      destruct k; try done; simpl;
      first [ by split; [apply same_context_refl|]
            | split; [apply same_context_set_errs|]; split; by apply prefix_app_r ].
Qed.

(** *** The loop of [ReportValidationErrors] *)

Lemma is_record_lookup (m : list fieldError) x :
  is_record m x = true <->
  exists l r, x = ptr_fieldError (Some l) /\ m !! l = Some r.
Proof.
  split.
  - destruct x as [|[l|]|]; simpl; try done.
    intros Hl%Nat.ltb_lt. destruct (lookup_lt_is_Some_2 m l Hl) as [r Hr]. eauto.
  - intros (l & r & -> & Hr). simpl. apply Nat.ltb_lt. by eapply lookup_lt_Some.
Qed.

(** One pass over a pointer to a record rewrites that record in place
    and appends the pointer. *)
Lemma merge_one_record st l r :
  mem st !! l = Some r ->
  merge_one (ptr_fieldError (Some l)) st =
    (Ok tt, {| mem := <[l := spliced (slNs (self st)) (slStructNs (self st)) r]> (mem st);
               self := set_errs (errs (self st) ++ [ptr_fieldError (Some l)]) (self st) |}).
Proof.
  intros Hr. pose proof (lookup_lt_Some _ _ _ Hr) as Hl.
  unfold merge_one, bind, assert_fieldError, ret, get_self, load, store, append_errs.
  simpl.
  repeat (first [ rewrite Hr
                | rewrite list_lookup_insert_eq by (by rewrite ?length_insert) ];
          simpl).
  by rewrite list_insert_insert_eq.
Qed.

(** One pass over anything else panics and changes nothing. *)
Lemma merge_one_panics st x :
  is_record (mem st) x = false ->
  exists p, merge_one x st = (Panic p, st) /\
            (forall impl, x = other_FieldError impl -> p = interface_conversion).
Proof.
  intros Hx. unfold merge_one, bind, assert_fieldError, ret, lift, get_self, load.
  destruct x as [|[l|]|impl]; simpl in *.
  - by exists interface_conversion.
  - apply Nat.ltb_ge in Hx. rewrite (lookup_ge_None_2 _ _ Hx).
    by exists nil_dereference.
  - by exists nil_dereference.
  - by exists interface_conversion.
Qed.

Lemma is_record_insert (m : list fieldError) l r x :
  is_record (<[l := r]> m) x = is_record m x.
Proof. destruct x as [|[l'|]|]; simpl; try done. by rewrite length_insert. Qed.

Lemma forallb_is_record_insert (m : list fieldError) l r batch :
  forallb (is_record (<[l := r]> m)) batch = forallb (is_record m) batch.
Proof. induction batch as [|x b IH]; simpl; [done|]. by rewrite is_record_insert, IH. Qed.

(** The loop leaves the context as it is, adds at the end of [errs], and
    keeps the size of the store. *)
Lemma merge_all_frame batch st :
  let st' := (merge_all batch st).2 in
  same_context (self st) (self st') /\
  errs (self st) `prefix_of` errs (self st') /\
  length (mem st') = length (mem st).
Proof.
  revert st. induction batch as [|x b IH]; intros st; simpl.
  { by split; [apply same_context_refl|]. }
  unfold bind. destruct (is_record (mem st) x) eqn:Hx.
  - apply is_record_lookup in Hx as (l & r & -> & Hr).
    rewrite (merge_one_record _ _ _ Hr).
    match goal with |- context [merge_all b ?s] => destruct (IH s) as (Hc & Hp & Hm) end.
    simpl in *. split; [|split].
    + eapply same_context_trans; [apply same_context_set_errs|exact Hc].
    + etrans; [|exact Hp]. by apply prefix_app_r.
    + by rewrite Hm, length_insert.
  - destruct (merge_one_panics _ _ Hx) as (p & -> & _). simpl.
    by split; [apply same_context_refl|].
Qed.

(** The loop runs to its end exactly on the batches that hold nothing
    but pointers to records. *)
Lemma merge_all_Ok_iff batch st :
  (merge_all batch st).1 = Ok tt <-> forallb (is_record (mem st)) batch = true.
Proof.
  revert st. induction batch as [|x b IH]; intros st; simpl; [done|].
  unfold bind. destruct (is_record (mem st) x) eqn:Hx; simpl.
  - apply is_record_lookup in Hx as (l & r & -> & Hr).
    rewrite (merge_one_record _ _ _ Hr), IH. simpl.
    by rewrite forallb_is_record_insert.
  - destruct (merge_one_panics _ _ Hx) as (p & -> & _). simpl. split; done.
Qed.

(** On such a batch the loop appends the batch as it is. *)
Lemma merge_all_appends batch st :
  forallb (is_record (mem st)) batch = true ->
  exists st', merge_all batch st = (Ok tt, st') /\
              errs (self st') = errs (self st) ++ batch /\
              length (mem st') = length (mem st).
Proof.
  revert st. induction batch as [|x b IH]; intros st; simpl.
  { intros _. exists st. by rewrite app_nil_r. }
  intros [Hx Hb]%andb_prop. unfold bind.
  apply is_record_lookup in Hx as (l & r & -> & Hr).
  rewrite (merge_one_record _ _ _ Hr).
  match goal with |- context [merge_all b ?s] => destruct (IH s) as (st' & Hrun & He & Hm) end.
  { simpl. by rewrite forallb_is_record_insert. }
  exists st'. rewrite Hrun. split; [done|]. simpl in *.
  split; [by rewrite He, <- app_assoc | by rewrite Hm, length_insert].
Qed.

(** The loop stops at the first element that is not a pointer to a
    record: what stands before it has been appended, it and what follows
    have not. *)
Lemma merge_all_stops (pre post : ValidationErrors) x st :
  forallb (is_record (mem st)) pre = true ->
  is_record (mem st) x = false ->
  exists p st', merge_all (pre ++ x :: post) st = (Panic p, st') /\
                errs (self st') = errs (self st) ++ pre /\
                (forall impl, x = other_FieldError impl -> p = interface_conversion).
Proof.
  revert st. induction pre as [|y pre IH]; intros st; simpl.
  - intros _ Hx. destruct (merge_one_panics _ _ Hx) as (p & Hp & Hi).
    exists p, st. unfold bind. rewrite Hp. by rewrite app_nil_r.
  - intros [Hy Hpre]%andb_prop Hx. unfold bind.
    apply is_record_lookup in Hy as (l & r & -> & Hr).
    rewrite (merge_one_record _ _ _ Hr).
    match goal with |- context [merge_all _ ?s] => destruct (IH s) as (p & st' & Hrun & He & Hi) end.
    { simpl. by rewrite forallb_is_record_insert. }
    { simpl. by rewrite is_record_insert. }
    exists p, st'. rewrite Hrun. split; [done|]. simpl in *.
    split; [by rewrite He, <- app_assoc | done].
Qed.

(** *** The records behind the pointers *)

Lemma insert_as_alter (f : fieldError -> fieldError) (m : list fieldError) l r :
  m !! l = Some r -> <[l := f r]> m = alter f l m.
Proof.
  intros Hr. apply list_eq. intros i. destruct (decide (l = i)) as [->|Hne].
  - rewrite list_lookup_alter_eq, Hr. simpl.
    apply list_lookup_insert_eq. by eapply lookup_lt_Some.
  - by rewrite list_lookup_alter_ne, list_lookup_insert_ne.
Qed.

Lemma length_merged s1 s2 (ls : list loc) (m : list fieldError) :
  length (merged s1 s2 ls m) = length m.
Proof.
  revert m. induction ls as [|l ls IH]; intros m; simpl; [done|].
  unfold merged in *. simpl. by rewrite IH, length_alter.
Qed.

Lemma merged_lookup_notin s1 s2 (ls : list loc) (m : list fieldError) l :
  l ∉ ls -> merged s1 s2 ls m !! l = m !! l.
Proof.
  revert m. induction ls as [|l' ls IH]; intros m Hl; [done|].
  apply not_elem_of_cons in Hl as [Hne Hl].
  unfold merged in *. simpl. rewrite IH by done.
  by apply list_lookup_alter_ne.
Qed.

(** A record the batch points to once is rewritten once. *)
Lemma merged_lookup_in s1 s2 (ls : list loc) (m : list fieldError) l :
  NoDup ls -> l ∈ ls -> merged s1 s2 ls m !! l = spliced s1 s2 <$> m !! l.
Proof.
  revert m. induction ls as [|l' ls IH]; intros m Hnd Hl.
  { by apply elem_of_nil in Hl. }
  apply NoDup_cons in Hnd as [Hl' Hnd].
  change (merged s1 s2 (l' :: ls) m) with (merged s1 s2 ls (alter (spliced s1 s2) l' m)).
  apply elem_of_cons in Hl as [->|Hl].
  - rewrite merged_lookup_notin by done. apply list_lookup_alter_eq.
  - rewrite IH by done. rewrite list_lookup_alter_ne; [done|]. by intros ->.
Qed.

(** On pointers to records the loop is [merged] on the store. *)
Lemma merge_all_pointers (ls : list loc) st :
  Forall (fun l => l < length (mem st)) ls ->
  merge_all (pointers ls) st =
    (Ok tt, {| mem := merged (slNs (self st)) (slStructNs (self st)) ls (mem st);
               self := set_errs (errs (self st) ++ pointers ls) (self st) |}).
Proof.
  revert st. induction ls as [|l ls IH]; intros st Hls.
  { simpl. unfold ret, merged, set_errs. simpl. rewrite app_nil_r. by destruct st as [m []]. }
  apply Forall_cons in Hls as [Hl Hls].
  destruct (lookup_lt_is_Some_2 _ _ Hl) as [r Hr].
  change (merge_all (pointers (l :: ls)) st)
    with (bind (merge_one (ptr_fieldError (Some l))) (fun _ => merge_all (pointers ls)) st).
  unfold bind. rewrite (merge_one_record _ _ _ Hr), IH.
  - simpl. rewrite (insert_as_alter _ _ _ _ Hr). unfold set_errs. simpl.
    by rewrite <- app_assoc.
  - simpl. by rewrite length_insert.
Qed.

(** A call on one record alone. *)
Lemma merge_alone rn ran st l r :
  mem st !! l = Some r ->
  mem (ReportValidationErrors rn ran (pointers [l]) st).2 !! l =
    Some (spliced (slNs (self st)) (slStructNs (self st)) r).
Proof.
  intros Hr. unfold ReportValidationErrors.
  rewrite (merge_all_pointers [l] st).
  - simpl. by rewrite list_lookup_alter_eq, Hr.
  - repeat constructor. by eapply lookup_lt_Some.
Qed.

(** The loop, however it ends, touches only the records its batch
    points to. *)
Lemma merge_all_untouched rn ran batch st l :
  l ∉ call_locs (call_ReportValidationErrors rn ran batch) ->
  mem (merge_all batch st).2 !! l = mem st !! l.
Proof.
  revert st. induction batch as [|x b IH]; intros st Hl; [done|].
  simpl in *. unfold bind. destruct (is_record (mem st) x) eqn:Hx.
  - apply is_record_lookup in Hx as (l' & r & -> & Hr). simpl in Hl.
    apply not_elem_of_cons in Hl as [Hne Hl].
    rewrite (merge_one_record _ _ _ Hr), IH by done. simpl.
    by apply list_lookup_insert_ne.
  - by destruct (merge_one_panics _ _ Hx) as (p & -> & _).
Qed.

(** *** Sequences of calls *)

Lemma do_call_frame (c : call) st :
  let st' := (do_call eti c st).2 in
  same_context (self st) (self st') /\
  errs (self st) `prefix_of` errs (self st') /\
  length (mem st) <= length (mem st').
Proof.
  destruct c as [f n a t|rn ran b]; simpl.
  - destruct (ReportError_frame st f n a t) as (Hc & He & Hm).
    split; [done|]. split; [done|]. by apply prefix_length.
  - destruct (merge_all_frame b st) as (Hc & He & Hm).
    split; [done|]. split; [done|]. unfold ReportValidationErrors. lia.
Qed.

Lemma do_calls_frame (cs : list call) st :
  let st' := (do_calls eti cs st).2 in
  same_context (self st) (self st') /\
  errs (self st) `prefix_of` errs (self st').
Proof.
  revert st. induction cs as [|c cs IH]; intros st; simpl.
  { by split; [apply same_context_refl|]. }
  unfold bind. destruct (do_call_frame c st) as (Hc & He & _).
  destruct (do_call eti c st) as [[[]|p] st1]; simpl in *; [|done].
  destruct (IH st1) as (Hc' & He').
  split; [by eapply same_context_trans | by etrans].
Qed.

(** A record that no later call hands to [ReportValidationErrors] stays
    as it is. *)
Lemma do_calls_untouched (cs : list call) st l :
  l < length (mem st) ->
  Forall (fun c => l ∉ call_locs c) cs ->
  mem (do_calls eti cs st).2 !! l = mem st !! l.
Proof.
  revert st. induction cs as [|c cs IH]; intros st Hl Hcs; [done|].
  apply Forall_cons in Hcs as [Hc Hcs]. simpl. unfold bind.
  assert (mem (do_call eti c st).2 !! l = mem st !! l) as Hstep.
  { destruct c as [f n a t|rn ran b]; simpl.
    - destruct (ReportError_frame st f n a t) as (_ & _ & Hm).
      destruct (lookup_lt_is_Some_2 _ _ Hl) as [r Hr]. rewrite Hr.
      by eapply prefix_lookup_Some.
    - by eapply merge_all_untouched. }
  destruct (do_call_frame c st) as (_ & _ & Hlen).
  destruct (do_call eti c st) as [[[]|p] st1]; simpl in *; [|done].
  rewrite IH; [done|lia|done].
Qed.

End Properties.

(** ** The description of [extractTypeInternal] *)

Lemma Spec_extractTypeInternal_nil (vd : validate) (x : reflect.Value) (nb : bool) :
  Spec.leads_to_nil x = true ->
  Spec.extractTypeInternal vd x nb = Ok (reflect.zero_Value, reflect.Invalid, true).
Proof.
  revert nb. induction x as [|t|t e IH|t d u IH|t d]; intros nb Hx; simpl in *;
    try done. by apply IH.
Qed.

Lemma Spec_extractTypeInternal_total (vd : validate) (x : reflect.Value) (nb : bool) :
  exists r, Spec.extractTypeInternal vd x nb = Ok r.
Proof.
  revert nb. induction x as [|t|t e IH|t d u IH|t d]; intros nb; simpl; eauto.
  destruct (customTypes (v vd) t); eauto.
Qed.

(** What is returned with a kind other than [Invalid] can be read. *)
Lemma Spec_extractTypeInternal_readable (vd : validate) (x : reflect.Value) (nb : bool)
    (fv : reflect.Value) (k : reflect.Kind) (nb' : bool) :
  Spec.extractTypeInternal vd x nb = Ok (fv, k, nb') ->
  k = reflect.Invalid \/ reflect.Value_IsValid fv = true.
Proof.
  revert nb. induction x as [|t|t e IH|t d u IH|t d]; intros nb; simpl.
  - intros [= <- <- <-]. by left.
  - intros [= <- <- <-]. by left.
  - apply IH.
  - destruct (customTypes (v vd) t); [apply IH|]. intros [= <- <- <-]. by right.
  - intros [= <- <- <-]. by right.
Qed.

(** ** Two runs of a callback *)

(** At the root, with empty namespaces: two failures reported one after
    the other give two records, [Name] then [Age], in that order. *)
Example root_callback_reports_two :
  let st := {| mem := []; self := context_at "" "" |} in
  let st' :=
    (do_calls Spec.extractTypeInternal
       [call_ReportError (Some (reflect.data_Value string_type "")) "Name" "Name" "required";
        call_ReportError None "Age" "Age" "gte"] st).2 in
  errs (self st') = [ptr_fieldError (Some 0); ptr_fieldError (Some 1)] /\
  (fun r => (ns r, tag r, kind r)) <$> mem st' =
    [("Name", "required", reflect.String); ("Age", "gte", reflect.Invalid)].
Proof. split; reflexivity. Qed.

(** The callback on [Order] merges the two nested errors. *)
Example order_callback_merges :
  let st' :=
    (ReportValidationErrors "" "" (pointers [0; 1]) order_state).2 in
  errs (self st') = pointers [0; 1] /\
  (fun r => (ns r, structNs r, field r)) <$> mem st' =
    [("Order.Email", "Order.Email", "Email");
     ("Order.Phone", "Order.Phone", "Phone")].
Proof. split; reflexivity. Qed.

(** ** The claims about [ReportError] *)

(** C2, as the code has it: when the extraction returns, and what it
    returns can be read unless its kind is [Invalid], [ReportError]
    appends exactly one error, a pointer to a new record, and the
    namespace of that record is the current display namespace followed
    at once by [fieldName], no separator put between them; so it is
    [fieldName] alone when the current namespace is empty. *)
Theorem C2_ReportError_appends_one
    (eti : validate -> reflect.Value -> bool ->
           result (reflect.Value * reflect.Kind * bool))
    (st : state) (f : reflect.any) (fieldName altName tg : string)
    (fv : reflect.Value) (k : reflect.Kind) (nb : bool) :
  eti (self st) (reflect.ValueOf f) false = Ok (fv, k, nb) ->
  k = reflect.Invalid \/ reflect.Value_IsValid fv = true ->
  exists e st',
    ReportError eti f fieldName altName tg st = (Ok tt, st') /\
    errs (self st') = errs (self st) ++ [ptr_fieldError (Some (length (mem st)))] /\
    mem st' = mem st ++ [e] /\
    tag e = tg /\
    ns e = slNs (self st) +:+ fieldName /\
    (slNs (self st) = "" -> ns e = fieldName).
Proof.
  intros Hx Hk.
  destruct (ReportError_Ok eti st f fieldName altName tg fv k nb Hx Hk)
    as (e & Hrun & Htag & _ & _ & _ & Hns & _).
  eexists e, _. split; [exact Hrun|]. simpl.
  repeat split; try done. intros Hroot. by rewrite Hns, Hroot.
Qed.

Lemma C2_ReportError_appends_one_witness :
  exists e st',
    ReportError Spec.extractTypeInternal (Some (reflect.data_Value string_type ""))
      "Name" "Name" "required" order_state = (Ok tt, st') /\
    errs (self st') = [ptr_fieldError (Some 2)] /\
    mem st' = mem order_state ++ [e] /\
    tag e = "required" /\
    ns e = "Order." +:+ "Name" /\
    (slNs (self order_state) = "" -> ns e = "Name").
Proof.
  apply (C2_ReportError_appends_one Spec.extractTypeInternal order_state
           (Some (reflect.data_Value string_type "")) "Name" "Name" "required"
           (reflect.data_Value string_type "") reflect.String false).
  - reflexivity.
  - right. reflexivity.
Defined.

(** C2, as it is worded, fails: in a context whose display namespace is
    [User], reporting on [Name] records the namespace [UserName], not
    [User.Name]; and where the context namespace is [User.], as a
    traversal that keeps the separator in it has it, the recorded
    [User.Name] is not [User.] followed by a dot and [Name] either. *)
Lemma C2_counterexample :
  let run cur :=
    ReportError Spec.extractTypeInternal (Some (reflect.data_Value string_type ""))
      "Name" "Name" "required" {| mem := []; self := context_at cur cur |} in
  ((run "User").1 = Ok tt /\
   ns <$> mem (run "User").2 !! 0 = Some "UserName" /\
   "UserName" <> "User" +:+ "." +:+ "Name") /\
  ((run "User.").1 = Ok tt /\
   ns <$> mem (run "User.").2 !! 0 = Some "User.Name" /\
   "User.Name" <> "User." +:+ "." +:+ "Name").
Proof. repeat split; done. Qed.

(** C4: when the extraction yields kind [Invalid], whatever the value
    [fv] it comes with (the zero Value, on which [Interface] and [Type]
    panic, included), [ReportError] returns; it appends one record whose
    kind is [Invalid] and whose [value] and [typ] are left unset.  The
    record does not depend on [fv], and the call returns for the zero
    Value: neither method is called on [fv]. *)
Theorem C4_invalid_kind_is_recorded
    (eti : validate -> reflect.Value -> bool ->
           result (reflect.Value * reflect.Kind * bool))
    (st : state) (f : reflect.any) (fieldName altName tg : string)
    (fv : reflect.Value) (nb : bool) :
  eti (self st) (reflect.ValueOf f) false = Ok (fv, reflect.Invalid, nb) ->
  let alt := if (String.length altName =? 0)%nat then fieldName else altName in
  ReportError eti f fieldName altName tg st =
    (Ok tt,
     {| mem := mem st ++
               [{| tag := tg; actualTag := tg;
                   ns := slNs (self st) +:+ fieldName;
                   structNs := slStructNs (self st) +:+ alt;
                   field := fieldName; structField := alt;
                   value := None; param := "";
                   kind := reflect.Invalid; typ := None |}];
        self := set_errs (errs (self st) ++
                          [ptr_fieldError (Some (length (mem st)))])
                         (self st) |}).
Proof.
  intros Hx alt. unfold ReportError, bind, get_self, lift. simpl.
  by rewrite Hx.
Qed.

Lemma C4_invalid_kind_is_recorded_witness :
  Value_Interface reflect.zero_Value = Panic zero_Value_call /\
  Value_Type reflect.zero_Value = Panic zero_Value_call /\
  ReportError Spec.extractTypeInternal None "Name" "" "required" order_state =
    (Ok tt,
     {| mem := mem order_state ++
               [{| tag := "required"; actualTag := "required";
                   ns := "Order.Name"; structNs := "Order.Name";
                   field := "Name"; structField := "Name";
                   value := None; param := "";
                   kind := reflect.Invalid; typ := None |}];
        self := set_errs [ptr_fieldError (Some 2)] (self order_state) |}).
Proof.
  split; [reflexivity|]. split; [reflexivity|].
  apply (C4_invalid_kind_is_recorded Spec.extractTypeInternal order_state None
           "Name" "" "required" reflect.zero_Value false).
  reflexivity.
Defined.

(** C8: with an empty [altName], the record [ReportError] appends has
    [fieldName] as its [structField], and its struct namespace is the
    current actual namespace followed by [fieldName]. *)
Theorem C8_empty_altName_is_fieldName
    (eti : validate -> reflect.Value -> bool ->
           result (reflect.Value * reflect.Kind * bool))
    (st : state) (f : reflect.any) (fieldName tg : string)
    (fv : reflect.Value) (k : reflect.Kind) (nb : bool) :
  eti (self st) (reflect.ValueOf f) false = Ok (fv, k, nb) ->
  k = reflect.Invalid \/ reflect.Value_IsValid fv = true ->
  exists e,
    ReportError eti f fieldName "" tg st =
      (Ok tt, {| mem := mem st ++ [e];
                 self := set_errs (errs (self st) ++
                                   [ptr_fieldError (Some (length (mem st)))])
                                  (self st) |}) /\
    structField e = fieldName /\
    structNs e = slStructNs (self st) +:+ fieldName.
Proof.
  intros Hx Hk.
  destruct (ReportError_Ok eti st f fieldName "" tg fv k nb Hx Hk)
    as (e & Hrun & _ & _ & _ & _ & _ & _ & Hsf & Hsns & _).
  exists e. simpl in Hsf. split; [exact Hrun|]. split; [exact Hsf|].
  by rewrite Hsns, Hsf.
Qed.

Lemma C8_empty_altName_is_fieldName_witness :
  exists e,
    ReportError Spec.extractTypeInternal (Some (reflect.data_Value string_type ""))
      "Name" "" "required" order_state =
      (Ok tt, {| mem := mem order_state ++ [e];
                 self := set_errs [ptr_fieldError (Some 2)] (self order_state) |}) /\
    structField e = "Name" /\
    structNs e = "Order." +:+ "Name".
Proof.
  apply (C8_empty_altName_is_fieldName Spec.extractTypeInternal order_state
           (Some (reflect.data_Value string_type "")) "Name" "required"
           (reflect.data_Value string_type "") reflect.String false).
  - reflexivity.
  - right. reflexivity.
Defined.

(** ** The claims about [ReportValidationErrors] *)

(** C1, on the code: neither relative namespace reaches the loop, so the
    call does the same whatever they are; on the nested [Email] error
    reported from the callback on [Order] with both relative namespaces
    [Customer.], the record ends with namespace [Order.Email], where the
    claim has [Order.Customer.Email]. *)
Theorem C1_relative_namespaces_unused :
  (forall (rn ran rn' ran' : string) (batch : ValidationErrors) (st : state),
     ReportValidationErrors rn ran batch st =
     ReportValidationErrors rn' ran' batch st) /\
  let st' :=
    (ReportValidationErrors "Customer." "Customer." [ptr_fieldError (Some 0)]
       order_state).2 in
  ns <$> mem st' !! 0 = Some "Order.Email" /\
  structNs <$> mem st' !! 0 = Some "Order.Email" /\
  "Order.Email" <>
    slNs (self order_state) +:+ "Customer." +:+ ns email_error +:+ field email_error.
Proof. split; [reflexivity|]. repeat split; done. Qed.

(** C3: on a batch of pointers to records, [ReportValidationErrors]
    returns and has appended the batch as it is, its [len(errs)] entries
    in their order, after what [errs] held; a second call appends its
    batch after that of the first. *)
Theorem C3_batches_appended_in_order
    (rn ran rn' ran' : string) (b1 b2 : ValidationErrors) (st : state) :
  forallb (is_record (mem st)) b1 = true ->
  forallb (is_record (mem st)) b2 = true ->
  exists st1 st2,
    ReportValidationErrors rn ran b1 st = (Ok tt, st1) /\
    errs (self st1) = errs (self st) ++ b1 /\
    length (errs (self st1)) = length (errs (self st)) + length b1 /\
    ReportValidationErrors rn' ran' b2 st1 = (Ok tt, st2) /\
    errs (self st2) = (errs (self st) ++ b1) ++ b2.
Proof.
  intros H1 H2. unfold ReportValidationErrors.
  destruct (merge_all_appends b1 st H1) as (st1 & Hrun1 & He1 & Hm1).
  assert (forallb (is_record (mem st1)) b2 = true) as H2'.
  { rewrite <- H2. clear -Hm1. induction b2 as [|x b IH]; simpl; [done|].
    rewrite IH. f_equal. destruct x as [|[l|]|]; simpl; try done. by rewrite Hm1. }
  destruct (merge_all_appends b2 st1 H2') as (st2 & Hrun2 & He2 & _).
  exists st1, st2. rewrite He2, He1. repeat split; try done.
  by rewrite length_app.
Qed.

Lemma C3_batches_appended_in_order_witness :
  exists st1 st2,
    ReportValidationErrors "" "" [ptr_fieldError (Some 0); ptr_fieldError (Some 1)]
      order_state = (Ok tt, st1) /\
    errs (self st1) = [] ++ [ptr_fieldError (Some 0); ptr_fieldError (Some 1)] /\
    length (errs (self st1)) = 0 + 2 /\
    ReportValidationErrors "Customer." "Customer." [ptr_fieldError (Some 1)] st1 =
      (Ok tt, st2) /\
    errs (self st2) =
      ([] ++ [ptr_fieldError (Some 0); ptr_fieldError (Some 1)]) ++
      [ptr_fieldError (Some 1)].
Proof.
  apply (C3_batches_appended_in_order "" "" "Customer." "Customer."
           [ptr_fieldError (Some 0); ptr_fieldError (Some 1)]
           [ptr_fieldError (Some 1)] order_state); reflexivity.
Defined.

(** C6, as the code has it: on a batch of pointers to pairwise distinct
    records the call returns, and each record is rewritten once: it ends
    as a call on that record alone leaves it, with [field],
    [structField], [tag], [actualTag], [kind], [value], [typ] and [param]
    as they were, so that [ns] and [structNs] alone can differ; the
    records the batch does not point to stay whole; and in any later
    sequence of calls a record that no [ReportValidationErrors] is handed
    again is not changed any more. *)
Theorem C6_distinct_records_rewritten_once
    (eti : validate -> reflect.Value -> bool ->
           result (reflect.Value * reflect.Kind * bool))
    (rn ran : string) (ls : list loc) (st : state) :
  NoDup ls ->
  Forall (fun l => l < length (mem st)) ls ->
  exists st',
    ReportValidationErrors rn ran (pointers ls) st = (Ok tt, st') /\
    (forall l r, l ∈ ls -> mem st !! l = Some r ->
       exists r',
         mem st' !! l = Some r' /\
         mem (ReportValidationErrors rn ran (pointers [l]) st).2 !! l = Some r' /\
         field r' = field r /\ structField r' = structField r /\
         tag r' = tag r /\ actualTag r' = actualTag r /\ kind r' = kind r /\
         value r' = value r /\ typ r' = typ r /\ param r' = param r) /\
    (forall l, l ∉ ls -> mem st' !! l = mem st !! l) /\
    (forall (cs : list call) l,
       l < length (mem st') ->
       Forall (fun c => l ∉ call_locs c) cs ->
       mem (do_calls eti cs st').2 !! l = mem st' !! l).
Proof.
  intros Hnd Hls.
  eexists. split; [by apply merge_all_pointers|]. cbn [mem self].
  split; [|split].
  - intros l r Hl Hr. exists (spliced (slNs (self st)) (slStructNs (self st)) r).
    rewrite (merge_alone rn ran st l r Hr), merged_lookup_in, Hr by done.
    by repeat split.
  - intros l Hl. by apply merged_lookup_notin.
  - intros cs l Hl Hcs. by apply do_calls_untouched.
Qed.

Lemma C6_distinct_records_rewritten_once_witness :
  exists st',
    ReportValidationErrors "" "" (pointers [1; 0]) order_state = (Ok tt, st') /\
    (forall l r, l ∈ [1; 0] -> mem order_state !! l = Some r ->
       exists r',
         mem st' !! l = Some r' /\
         mem (ReportValidationErrors "" "" (pointers [l]) order_state).2 !! l = Some r' /\
         field r' = field r /\ structField r' = structField r /\
         tag r' = tag r /\ actualTag r' = actualTag r /\ kind r' = kind r /\
         value r' = value r /\ typ r' = typ r /\ param r' = param r) /\
    (forall l, l ∉ [1; 0] -> mem st' !! l = mem order_state !! l) /\
    (forall (cs : list call) l,
       l < length (mem st') ->
       Forall (fun c => l ∉ call_locs c) cs ->
       mem (do_calls Spec.extractTypeInternal cs st').2 !! l = mem st' !! l).
Proof.
  apply (C6_distinct_records_rewritten_once Spec.extractTypeInternal "" ""
           [1; 0] order_state).
  - apply (bool_decide_unpack _). vm_compute. exact I.
  - repeat constructor.
Defined.

(** C6, as it is worded, fails: a batch that holds the pointer to the
    [Email] record twice rewrites that record twice, and a second call
    on the same batch rewrites it again after it was appended. *)
Lemma C6_counterexample :
  let p := ptr_fieldError (Some 0) in
  let once := spliced "Order." "Order." email_error in
  let twice := (ReportValidationErrors "" "" [p; p] order_state).2 in
  let first := (ReportValidationErrors "" "" [p] order_state).2 in
  let second := (ReportValidationErrors "" "" [p] first).2 in
  ns once = "Order.Email" /\
  ns <$> mem twice !! 0 = Some "Order.Order.EmailEmail" /\
  mem twice !! 0 <> Some once /\
  mem first !! 0 = Some once /\
  errs (self first) = [p] /\
  ns <$> mem second !! 0 = Some "Order.Order.EmailEmail" /\
  mem second !! 0 <> mem first !! 0.
Proof. repeat split; done. Qed.

(** C10: [ReportValidationErrors] returns exactly on the batches all of
    whose elements are pointers to [fieldError] records; on a batch that
    holds a value of another implementation of the interface, after
    pointers to records only, the type assertion panics: what stood
    before that value has been appended, the value itself and what
    follows it have not. *)
Theorem C10_total_only_on_fieldError_records
    (rn ran : string) (batch : ValidationErrors) (st : state) :
  ((ReportValidationErrors rn ran batch st).1 = Ok tt <->
   forallb (is_record (mem st)) batch = true) /\
  (forall (pre post : ValidationErrors) (impl : string),
     batch = pre ++ other_FieldError impl :: post ->
     forallb (is_record (mem st)) pre = true ->
     exists st',
       ReportValidationErrors rn ran batch st = (Panic interface_conversion, st') /\
       errs (self st') = errs (self st) ++ pre).
Proof.
  unfold ReportValidationErrors. split; [apply merge_all_Ok_iff|].
  intros pre post impl -> Hpre.
  destruct (merge_all_stops pre post (other_FieldError impl) st Hpre eq_refl)
    as (p & st' & Hrun & He & Hp).
  exists st'. by rewrite Hrun, (Hp impl eq_refl).
Qed.

Lemma C10_total_only_on_fieldError_records_witness :
  let batch := [ptr_fieldError (Some 0); other_FieldError "custom"; ptr_fieldError (Some 1)] in
  (ReportValidationErrors "" "" batch order_state).1 <> Ok tt /\
  exists st',
    ReportValidationErrors "" "" batch order_state = (Panic interface_conversion, st') /\
    errs (self st') = [] ++ [ptr_fieldError (Some 0)].
Proof.
  intros batch.
  destruct (C10_total_only_on_fieldError_records "" "" batch order_state) as [Hiff Hstop].
  split.
  - intros Hok. apply Hiff in Hok. vm_compute in Hok. discriminate.
  - apply (Hstop [ptr_fieldError (Some 0)] [ptr_fieldError (Some 1)] "custom");
      reflexivity.
Defined.

(** ** The claims about both operations *)

(** C7: over any sequence of calls of [ReportError] and
    [ReportValidationErrors], however it ends, what [errs] held at the
    start is a prefix of what it holds at the end: the entries are
    there, at their places, and the calls have added after them only. *)
Theorem C7_errs_only_grows
    (eti : validate -> reflect.Value -> bool ->
           result (reflect.Value * reflect.Kind * bool))
    (cs : list call) (st : state) :
  errs (self st) `prefix_of` errs (self (do_calls eti cs st).2) /\
  (forall i x, errs (self st) !! i = Some x ->
               errs (self (do_calls eti cs st).2) !! i = Some x).
Proof.
  destruct (do_calls_frame eti cs st) as [_ Hp]. split; [exact Hp|].
  intros i x Hx. by eapply prefix_lookup_Some.
Qed.

Lemma C7_errs_only_grows_witness :
  let cs := [call_ReportValidationErrors "" "" [ptr_fieldError (Some 0)];
             call_ReportError None "Name" "" "required";
             call_ReportValidationErrors "" "" [other_FieldError "custom"]] in
  let st := {| mem := mem order_state;
               self := set_errs [ptr_fieldError (Some 1)] (self order_state) |} in
  errs (self (do_calls Spec.extractTypeInternal cs st).2) !! 0 =
    Some (ptr_fieldError (Some 1)).
Proof.
  intros cs st.
  apply (C7_errs_only_grows Spec.extractTypeInternal cs st). reflexivity.
Defined.

(** C9: a call of [ReportError] or of [ReportValidationErrors], however
    it ends, leaves [v], [top], [slflParent], [slCurrent], [slNs] and
    [slStructNs] of the context as they were, and [errs] extended. *)
Theorem C9_context_position_untouched
    (eti : validate -> reflect.Value -> bool ->
           result (reflect.Value * reflect.Kind * bool))
    (st : state) (f : reflect.any) (fieldName altName tg rn ran : string)
    (batch : ValidationErrors) :
  let after_report := self (ReportError eti f fieldName altName tg st).2 in
  let after_merge := self (ReportValidationErrors rn ran batch st).2 in
  (same_context (self st) after_report /\
   errs (self st) `prefix_of` errs after_report) /\
  (same_context (self st) after_merge /\
   errs (self st) `prefix_of` errs after_merge).
Proof.
  destruct (ReportError_frame eti st f fieldName altName tg) as (Hc & He & _).
  destruct (merge_all_frame batch st) as (Hc' & He' & _).
  split; split; assumption.
Qed.

(** ** The claim about [ExtractType] *)

(** C5, on [extractTypeInternal] as it is described: [ExtractType]
    returns on every value and leaves the state as it is; on a nil
    pointer, and on a pointer that leads to a nil pointer through any
    number of pointers, it returns the zero Value, kind [Invalid], and
    nullable [true]. *)
Theorem C5_ExtractType_nil_pointer (st : state) (x : reflect.Value) :
  (exists r, ExtractType Spec.extractTypeInternal x st = (Ok r, st)) /\
  (Spec.leads_to_nil x = true ->
   ExtractType Spec.extractTypeInternal x st =
     (Ok (reflect.zero_Value, reflect.Invalid, true), st)).
Proof.
  unfold ExtractType, bind, get_self, lift. simpl. split.
  - destruct (Spec_extractTypeInternal_total (self st) x false) as [r ->]. by exists r.
  - intros Hx. by rewrite Spec_extractTypeInternal_nil.
Qed.

Lemma C5_ExtractType_nil_pointer_witness :
  let pp := reflect.ptr_Value string_type (reflect.nil_ptr_Value string_type) in
  Spec.leads_to_nil pp = true /\
  ExtractType Spec.extractTypeInternal pp order_state =
    (Ok (reflect.zero_Value, reflect.Invalid, true), order_state).
Proof.
  intros pp. split; [reflexivity|].
  apply (C5_ExtractType_nil_pointer order_state pp). reflexivity.
Defined.

(** ** Further properties of the operations *)

(** *** [ReportError] *)

(** The three ways a call of [ReportError] can go. *)
Lemma ReportError_cases
    (eti : validate -> reflect.Value -> bool ->
           result (reflect.Value * reflect.Kind * bool))
    (st : state) (f : reflect.any) (fieldName altName tg : string) :
  match eti (self st) (reflect.ValueOf f) false with
  | Panic p => ReportError eti f fieldName altName tg st = (Panic p, st)
  | Ok (fv, k, _) =>
      if bool_decide (k = reflect.Invalid) || reflect.Value_IsValid fv
      then exists e,
          ReportError eti f fieldName altName tg st =
            (Ok tt, {| mem := mem st ++ [e];
                       self := set_errs (errs (self st) ++
                                         [ptr_fieldError (Some (length (mem st)))])
                                        (self st) |}) /\
          kind e = k /\
          (k <> reflect.Invalid ->
           value e = Some fv /\ Ok (A := reflect.rtype) <$> typ e = Some (Value_Type fv)) /\
          ns e = slNs (self st) +:+ fieldName /\
          structNs e = slStructNs (self st) +:+ structField e
      else ReportError eti f fieldName altName tg st = (Panic zero_Value_call, st)
  end.
Proof.
  unfold ReportError, bind, get_self, lift. simpl.
  destruct (eti _ _ _) as [[[fv k] nb]|p]; [|done].
  destruct (decide (k = reflect.Invalid)) as [->|Hne].
  - simpl. eexists. split; [reflexivity|]. by repeat split.
  - rewrite bool_decide_eq_false_2 by done. simpl.
    destruct fv; simpl; destruct k; try done; simpl;
      (eexists; split; [reflexivity|]; by repeat split).
Qed.

(** X1: [ReportError] is all or nothing: either it returns, and then it has
    added one record at the end of the store, touching no other, and one
    pointer to it at the end of [errs]; or it panics, and then the state
    is as it was. *)
Theorem ReportError_all_or_nothing
    (eti : validate -> reflect.Value -> bool ->
           result (reflect.Value * reflect.Kind * bool))
    (st : state) (f : reflect.any) (fieldName altName tg : string) :
  (exists e,
     ReportError eti f fieldName altName tg st =
       (Ok tt, {| mem := mem st ++ [e];
                  self := set_errs (errs (self st) ++
                                    [ptr_fieldError (Some (length (mem st)))])
                                   (self st) |})) \/
  (exists p, ReportError eti f fieldName altName tg st = (Panic p, st)).
Proof.
  pose proof (ReportError_cases eti st f fieldName altName tg) as H.
  destruct (eti _ _ _) as [[[fv k] nb]|p]; [|right; eauto].
  destruct (_ || _); [|right; eauto].
  destruct H as (e & Hrun & _). left. eauto.
Qed.

(** X2: what [ExtractType] returns on [reflect.ValueOf(field)] is what
    [ReportError] records: when the kind is not [Invalid] and the value
    is valid, the record carries that kind, that value (the dereferenced
    one, not [field] itself) and its type. *)
Theorem ReportError_records_what_ExtractType_returns
    (eti : validate -> reflect.Value -> bool ->
           result (reflect.Value * reflect.Kind * bool))
    (st : state) (f : reflect.any) (fieldName altName tg : string)
    (fv : reflect.Value) (k : reflect.Kind) (nb : bool) :
  (ExtractType eti (reflect.ValueOf f) st).1 = Ok (fv, k, nb) ->
  k <> reflect.Invalid ->
  reflect.Value_IsValid fv = true ->
  exists e t,
    ReportError eti f fieldName altName tg st =
      (Ok tt, {| mem := mem st ++ [e];
                 self := set_errs (errs (self st) ++
                                   [ptr_fieldError (Some (length (mem st)))])
                                  (self st) |}) /\
    kind e = k /\ value e = Some fv /\
    Value_Type fv = Ok t /\ typ e = Some t.
Proof.
  unfold ExtractType, bind, get_self, lift. simpl. intros Hx Hk Hfv.
  pose proof (ReportError_cases eti st f fieldName altName tg) as H.
  destruct (eti _ _ _) as [[[fv' k'] nb']|p]; simplify_eq/=.
  rewrite Hfv, orb_true_r in H. destruct H as (e & Hrun & Hkind & Hval & _).
  destruct (Hval Hk) as [Hv Ht].
  destruct (typ e) as [t|] eqn:Hte; simplify_eq/=.
  exists e, t. by repeat split.
Qed.

Lemma ReportError_records_what_ExtractType_returns_witness :
  exists e t,
    ReportError Spec.extractTypeInternal (Some name_pointer) "Name" "" "required"
      order_state =
      (Ok tt, {| mem := mem order_state ++ [e];
                 self := set_errs [ptr_fieldError (Some 2)] (self order_state) |}) /\
    kind e = reflect.String /\
    value e = Some (reflect.data_Value string_type "Joe") /\
    Value_Type (reflect.data_Value string_type "Joe") = Ok t /\ typ e = Some t.
Proof.
  apply (ReportError_records_what_ExtractType_returns Spec.extractTypeInternal
           order_state (Some name_pointer) "Name" "" "required"
           (reflect.data_Value string_type "Joe") reflect.String true);
    [reflexivity|discriminate|reflexivity].
Defined.

(** *** The read operations *)

(** X4: [Top], [Parent], [Current] and [Validator] change nothing, and
    after any sequence of calls of the reporting operations, however it
    ends, they return what they returned before it. *)
Theorem accessors_stable_under_reporting
    (eti : validate -> reflect.Value -> bool ->
           result (reflect.Value * reflect.Kind * bool))
    (cs : list call) (st : state) :
  let st' := (do_calls eti cs st).2 in
  Top st' = (Ok (top (self st)), st') /\
  Parent st' = (Ok (slflParent (self st)), st') /\
  Current st' = (Ok (slCurrent (self st)), st') /\
  Validator st' = (Ok (v (self st)), st').
Proof.
  destruct (do_calls_frame eti cs st) as [(Hv & Ht & Hp & Hc & _) _].
  unfold Top, Parent, Current, Validator, bind, get_self, ret. simpl.
  by rewrite Hv, Ht, Hp, Hc.
Qed.

(** *** [ReportValidationErrors] *)

Lemma merge_all_app (b1 b2 : ValidationErrors) (st : state) :
  merge_all (b1 ++ b2) st = bind (merge_all b1) (fun _ => merge_all b2) st.
Proof.
  revert st. induction b1 as [|x b IH]; intros st; [done|].
  change (merge_all ((x :: b) ++ b2) st)
    with (bind (merge_one x) (fun _ => merge_all (b ++ b2)) st).
  change (merge_all (x :: b))
    with (bind (merge_one x) (fun _ => merge_all b)).
  unfold bind. destruct (merge_one x st) as [[[]|p] s]; [|done].
  rewrite IH. done.
Qed.

(** X5: one call on a batch is two calls in a row on its two parts, whatever
    the relative namespaces of the calls and also when one panics. *)
Theorem ReportValidationErrors_app
    (rn ran rn1 ran1 rn2 ran2 : string) (b1 b2 : ValidationErrors) (st : state) :
  ReportValidationErrors rn ran (b1 ++ b2) st =
  (ReportValidationErrors rn1 ran1 b1 ;; ReportValidationErrors rn2 ran2 b2) st.
Proof. unfold ReportValidationErrors. apply merge_all_app. Qed.

Lemma merge_one_panic_of (st : state) (x : FieldError) :
  (forall l, x <> ptr_fieldError (Some l)) ->
  merge_one x st = (Panic (panic_of x), st).
Proof.
  intros Hx. destruct x as [|[l|]|impl]; try done. by destruct (Hx l).
Qed.

Lemma is_record_length (m m' : list fieldError) (x : FieldError) :
  length m = length m' -> is_record m x = is_record m' x.
Proof. intros Hm. destruct x as [|[l|]|]; simpl; try done. by rewrite Hm. Qed.

(** The loop on a batch whose first element that is not a pointer to a
    record is [x]: it ends as the loop on what stands before [x], with
    the panic of the body on [x]. *)
Lemma merge_all_first_bad (pre post : ValidationErrors) (x : FieldError) (st : state) :
  forallb (is_record (mem st)) pre = true ->
  is_record (mem st) x = false ->
  exists p, merge_one x (merge_all pre st).2 = (Panic p, (merge_all pre st).2) /\
            merge_all (pre ++ x :: post) st = (Panic p, (merge_all pre st).2).
Proof.
  intros Hpre Hx. rewrite merge_all_app. unfold bind at 1.
  destruct (merge_all_appends pre st Hpre) as (s1 & Hrun & _ & Hm).
  rewrite Hrun. simpl. unfold bind.
  rewrite (is_record_length _ (mem s1)) in Hx by done.
  destruct (merge_one_panics s1 x Hx) as (p & Hp & _). exists p. by rewrite Hp.
Qed.

(** X6: a batch that holds, after pointers to records, a nil interface, a
    nil [*fieldError] or a value of another type makes the call panic
    there: the type assertion fails on the nil interface and on the other
    type, a nil [*fieldError] passes it and fails at the read of its
    fields. *)
Theorem ReportValidationErrors_panic_of_first_bad
    (rn ran : string) (pre post : ValidationErrors) (x : FieldError) (st : state) :
  forallb (is_record (mem st)) pre = true ->
  (forall l, x <> ptr_fieldError (Some l)) ->
  (ReportValidationErrors rn ran (pre ++ x :: post) st).1 =
    Panic match x with
          | ptr_fieldError _ => nil_dereference
          | nil_FieldError | other_FieldError _ => interface_conversion
          end.
Proof.
  intros Hpre Hx. unfold ReportValidationErrors.
  destruct (merge_all_first_bad pre post x st Hpre) as (p & Hp & ->).
  { destruct x as [|[l|]|]; try done. by destruct (Hx l). }
  rewrite (merge_one_panic_of _ x Hx) in Hp. by simplify_eq/=.
Qed.

Lemma ReportValidationErrors_panic_of_first_bad_witness :
  (ReportValidationErrors "" ""
     ([ptr_fieldError (Some 1)] ++ ptr_fieldError None :: [ptr_fieldError (Some 0)])
     order_state).1 = Panic nil_dereference /\
  (ReportValidationErrors "" ""
     ([ptr_fieldError (Some 1)] ++ nil_FieldError :: [ptr_fieldError (Some 0)])
     order_state).1 = Panic interface_conversion.
Proof.
  split.
  - apply (ReportValidationErrors_panic_of_first_bad "" ""
             [ptr_fieldError (Some 1)] [ptr_fieldError (Some 0)]
             (ptr_fieldError None) order_state); [reflexivity|discriminate].
  - apply (ReportValidationErrors_panic_of_first_bad "" ""
             [ptr_fieldError (Some 1)] [ptr_fieldError (Some 0)]
             nil_FieldError order_state); [reflexivity|discriminate].
Defined.

(** X7: a call that panics is not undone: it leaves the state as the call on
    the elements before the offending one leaves it, with their records
    rewritten and their pointers appended. *)
Theorem ReportValidationErrors_panic_keeps_partial_effects
    (rn ran : string) (pre post : ValidationErrors) (x : FieldError) (st : state) :
  forallb (is_record (mem st)) pre = true ->
  is_record (mem st) x = false ->
  (ReportValidationErrors rn ran (pre ++ x :: post) st).2 =
  (ReportValidationErrors rn ran pre st).2 /\
  (ReportValidationErrors rn ran pre st).1 = Ok tt.
Proof.
  intros Hpre Hx. unfold ReportValidationErrors. split.
  - by destruct (merge_all_first_bad pre post x st Hpre Hx) as (p & _ & ->).
  - by apply merge_all_Ok_iff.
Qed.

Lemma ReportValidationErrors_panic_keeps_partial_effects_witness :
  let st' :=
    (ReportValidationErrors "" ""
       ([ptr_fieldError (Some 1)] ++ other_FieldError "custom" :: [ptr_fieldError (Some 0)])
       order_state).2 in
  st' = (ReportValidationErrors "" "" [ptr_fieldError (Some 1)] order_state).2 /\
  ns <$> mem st' = ["" ; "Order.Phone"] /\
  errs (self st') = [ptr_fieldError (Some 1)].
Proof.
  intros st'. split; [|split; reflexivity].
  apply (ReportValidationErrors_panic_keeps_partial_effects "" ""
           [ptr_fieldError (Some 1)] [ptr_fieldError (Some 0)]
           (other_FieldError "custom") order_state); reflexivity.
Defined.

(** *** The store after a merge *)

Lemma merged_lookup_count s1 s2 (ls : list loc) (m : list fieldError) (l : loc) :
  merged s1 s2 ls m !! l =
  Nat.iter (count_occ Nat.eq_dec ls l) (spliced s1 s2) <$> m !! l.
Proof.
  revert m. induction ls as [|l' ls IH]; intros m.
  { simpl. by destruct (m !! l). }
  change (merged s1 s2 (l' :: ls) m) with (merged s1 s2 ls (alter (spliced s1 s2) l' m)).
  rewrite IH. simpl. destruct (Nat.eq_dec l' l) as [->|Hne].
  - rewrite list_lookup_alter_eq. destruct (m !! l) as [r|]; simpl; [|done].
    f_equal. by rewrite <- Nat.iter_succ_r.
  - by rewrite list_lookup_alter_ne.
Qed.

(** X8: on a batch of pointers to records, a record is rewritten as many
    times as the batch points to it: not at all, once, or over and over,
    each pass working on what the pass before it left. *)
Theorem ReportValidationErrors_rewrites_per_occurrence
    (rn ran : string) (ls : list loc) (st : state) (l : loc) (r : fieldError) :
  Forall (fun l' => l' < length (mem st)) ls ->
  mem st !! l = Some r ->
  mem (ReportValidationErrors rn ran (pointers ls) st).2 !! l =
    Some (Nat.iter (count_occ Nat.eq_dec ls l)
                   (spliced (slNs (self st)) (slStructNs (self st))) r).
Proof.
  intros Hls Hr. unfold ReportValidationErrors.
  rewrite (merge_all_pointers ls st Hls). cbn [snd mem].
  by rewrite merged_lookup_count, Hr.
Qed.

Lemma ReportValidationErrors_rewrites_per_occurrence_witness :
  let st' := (ReportValidationErrors "" "" (pointers [0; 1; 0; 0]) order_state).2 in
  ns <$> mem st' !! 0 = Some "Order.Order.Order.EmailEmailEmail" /\
  ns <$> mem st' !! 1 = Some "Order.Phone".
Proof.
  intros st'. unfold st'. split.
  - rewrite (ReportValidationErrors_rewrites_per_occurrence "" "" [0; 1; 0; 0]
               order_state 0 email_error); [reflexivity| |reflexivity].
    repeat constructor.
  - rewrite (ReportValidationErrors_rewrites_per_occurrence "" "" [0; 1; 0; 0]
               order_state 1 phone_error); [reflexivity| |reflexivity].
    repeat constructor.
Defined.

Lemma merged_Permutation s1 s2 (ls ls' : list loc) (m : list fieldError) :
  ls ≡ₚ ls' -> merged s1 s2 ls m = merged s1 s2 ls' m.
Proof.
  intros Hp. apply list_eq. intros i. rewrite !merged_lookup_count.
  by rewrite (proj1 (Permutation_count_occ Nat.eq_dec ls ls') Hp i).
Qed.

(** X9: the order of a batch of pointers to records decides the order of the
    entries appended and nothing else: two batches that hold the same
    pointers, each as often, leave the same store. *)
Theorem ReportValidationErrors_store_order_independent
    (rn ran : string) (ls ls' : list loc) (st : state) :
  Forall (fun l => l < length (mem st)) ls ->
  ls ≡ₚ ls' ->
  mem (ReportValidationErrors rn ran (pointers ls) st).2 =
  mem (ReportValidationErrors rn ran (pointers ls') st).2 /\
  errs (self (ReportValidationErrors rn ran (pointers ls) st).2) =
    errs (self st) ++ pointers ls /\
  errs (self (ReportValidationErrors rn ran (pointers ls') st).2) =
    errs (self st) ++ pointers ls'.
Proof.
  intros Hls Hp. unfold ReportValidationErrors.
  assert (Forall (fun l => l < length (mem st)) ls') as Hls' by (by rewrite <- Hp).
  rewrite (merge_all_pointers ls st Hls), (merge_all_pointers ls' st Hls').
  cbn [snd mem self]. split; [by apply merged_Permutation|done].
Qed.

Lemma ReportValidationErrors_store_order_independent_witness :
  mem (ReportValidationErrors "" "" (pointers [0; 1; 0]) order_state).2 =
  mem (ReportValidationErrors "" "" (pointers [1; 0; 0]) order_state).2 /\
  errs (self (ReportValidationErrors "" "" (pointers [0; 1; 0]) order_state).2) =
    [] ++ pointers [0; 1; 0] /\
  errs (self (ReportValidationErrors "" "" (pointers [1; 0; 0]) order_state).2) =
    [] ++ pointers [1; 0; 0].
Proof.
  apply (ReportValidationErrors_store_order_independent "" "" [0; 1; 0] [1; 0; 0]
           order_state).
  - repeat constructor.
  - apply (Permutation_swap 1 0 [0]).
Defined.

(** *** Sequences of calls, again *)

(** Splits on the outcome of a call of [ReportError]: it returned, with
    record [e] added, or it panicked and changed nothing. *)
Ltac ReportError_outcome eti st f n a t e Hrun :=
  let H := fresh "H" in
  pose proof (ReportError_cases eti st f n a t) as H;
  destruct (eti (self st) (reflect.ValueOf f) false) as [[[? ?] ?]|?];
    [ match type of H with
      | if ?b then _ else _ => destruct b; [destruct H as (e & Hrun & _)|rename H into Hrun]
      end
    | rename H into Hrun ].

Lemma forallb_is_record_mono (m m' : list fieldError) (batch : ValidationErrors) :
  length m <= length m' ->
  forallb (is_record m) batch = true -> forallb (is_record m') batch = true.
Proof.
  intros Hm. induction batch as [|x b IH]; simpl; [done|].
  intros [Hx Hb]%andb_prop. rewrite IH by done.
  destruct x as [|[l|]|]; simpl in *; try done.
  apply Nat.ltb_lt in Hx. rewrite andb_true_r. apply Nat.ltb_lt. lia.
Qed.

Lemma merge_all_well_formed (batch : ValidationErrors) (st : state) :
  well_formed st = true -> well_formed (merge_all batch st).2 = true.
Proof.
  revert st. induction batch as [|x b IH]; intros st Hwf; [done|].
  simpl. unfold bind. destruct (is_record (mem st) x) eqn:Hx.
  - pose proof Hx as Hx'. apply is_record_lookup in Hx as (l & r & -> & Hr).
    rewrite (merge_one_record _ _ _ Hr). apply IH.
    unfold well_formed in *. simpl.
    rewrite forallb_app, forallb_is_record_insert, Hwf. simpl.
    by rewrite length_insert, andb_true_r.
  - by destruct (merge_one_panics _ _ Hx) as (p & -> & _).
Qed.

Lemma do_call_well_formed
    (eti : validate -> reflect.Value -> bool ->
           result (reflect.Value * reflect.Kind * bool))
    (c : call) (st : state) :
  well_formed st = true -> well_formed (do_call eti c st).2 = true.
Proof.
  intros Hwf. destruct c as [f n a t|rn ran b]; simpl.
  - ReportError_outcome eti st f n a t e Hrun; rewrite Hrun; try done.
    unfold well_formed in *. simpl. rewrite forallb_app. simpl.
    rewrite (forallb_is_record_mono (mem st)); [|rewrite length_app; lia|done].
    rewrite length_app. simpl. rewrite andb_true_r. apply Nat.ltb_lt. lia.
  - by apply merge_all_well_formed.
Qed.

(** X10: if [errs] holds nothing but pointers to records before a sequence of
    calls, so it does after it, however the sequence ends; and then
    [errs] itself is a batch on which [ReportValidationErrors] returns. *)
Theorem errs_hold_only_records
    (eti : validate -> reflect.Value -> bool ->
           result (reflect.Value * reflect.Kind * bool))
    (cs : list call) (rn ran : string) (st : state) :
  well_formed st = true ->
  let st' := (do_calls eti cs st).2 in
  well_formed st' = true /\
  (ReportValidationErrors rn ran (errs (self st')) st').1 = Ok tt.
Proof.
  intros Hwf st'.
  assert (well_formed st' = true) as Hwf'.
  { unfold st'. clear st'. revert st Hwf.
    induction cs as [|c cs IH]; intros st Hwf; [done|].
    simpl. unfold bind. pose proof (do_call_well_formed eti c st Hwf) as Hc.
    destruct (do_call eti c st) as [[[]|p] s1]; [by apply IH|done]. }
  split; [done|]. by apply merge_all_Ok_iff.
Qed.

Lemma errs_hold_only_records_witness :
  let cs := [call_ReportError None "Name" "" "required";
             call_ReportValidationErrors "" "" [ptr_fieldError (Some 1); nil_FieldError];
             call_ReportError None "Age" "" "gte"] in
  let st' := (do_calls Spec.extractTypeInternal cs order_state).2 in
  well_formed st' = true /\
  (ReportValidationErrors "" "" (errs (self st')) st').1 = Ok tt.
Proof.
  intros cs.
  apply (errs_hold_only_records Spec.extractTypeInternal cs "" "" order_state).
  reflexivity.
Defined.

Lemma do_call_counts
    (eti : validate -> reflect.Value -> bool ->
           result (reflect.Value * reflect.Kind * bool))
    (c : call) (st : state) :
  (do_call eti c st).1 = Ok tt ->
  length (errs (self (do_call eti c st).2)) =
    length (errs (self st)) + call_size c /\
  length (mem (do_call eti c st).2) = length (mem st) + call_allocs c.
Proof.
  destruct c as [f n a t|rn ran b]; simpl.
  - ReportError_outcome eti st f n a t e Hrun; rewrite Hrun; try done.
    intros _. simpl. by rewrite !length_app.
  - unfold ReportValidationErrors. intros Hok%merge_all_Ok_iff.
    destruct (merge_all_appends b st Hok) as (st' & -> & He & Hm). simpl.
    rewrite He, Hm, length_app. lia.
Qed.

(** X11: a sequence of calls that returns has appended one entry for each
    [ReportError] and [len(errs)] entries for each
    [ReportValidationErrors], and has allocated one record for each
    [ReportError] and none for a [ReportValidationErrors], whose entries
    are the caller's own records. *)
Theorem do_calls_counts
    (eti : validate -> reflect.Value -> bool ->
           result (reflect.Value * reflect.Kind * bool))
    (cs : list call) (st : state) :
  (do_calls eti cs st).1 = Ok tt ->
  length (errs (self (do_calls eti cs st).2)) =
    length (errs (self st)) + sum_list (call_size <$> cs) /\
  length (mem (do_calls eti cs st).2) =
    length (mem st) + sum_list (call_allocs <$> cs).
Proof.
  revert st. induction cs as [|c cs IH]; intros st; simpl; [intros _; lia|].
  unfold bind. pose proof (do_call_counts eti c st) as Hc.
  destruct (do_call eti c st) as [[[]|p] s1]; simpl in *; [|done].
  intros Hok. destruct (Hc eq_refl) as [He Hm]. destruct (IH s1 Hok) as [He' Hm'].
  rewrite He', Hm', He, Hm. split; by rewrite Nat.add_assoc.
Qed.

Lemma do_calls_counts_witness :
  let cs := [call_ReportError None "Name" "" "required";
             call_ReportValidationErrors "" "" (pointers [1; 0; 1]);
             call_ReportError (Some name_pointer) "Name" "" "required"] in
  length (errs (self (do_calls Spec.extractTypeInternal cs order_state).2)) = 0 + 5 /\
  length (mem (do_calls Spec.extractTypeInternal cs order_state).2) = 2 + 2.
Proof.
  intros cs.
  apply (do_calls_counts Spec.extractTypeInternal cs order_state). reflexivity.
Defined.

(** *** [ReportError], then [ReportValidationErrors] *)

(** X13: an error that [ReportError] recorded under a context [A] and that a
    callback under a context [B] hands to [ReportValidationErrors]
    gets the namespace of [B], then the namespace it had, which ends with
    the field name, then the field name once more; likewise for the
    struct namespace and the struct field. *)
Theorem ReportError_then_ReportValidationErrors
    (eti : validate -> reflect.Value -> bool ->
           result (reflect.Value * reflect.Kind * bool))
    (st : state) (f : reflect.any) (fieldName altName tg rn ran : string)
    (fv : reflect.Value) (k : reflect.Kind) (nb : bool) (B : validate) :
  eti (self st) (reflect.ValueOf f) false = Ok (fv, k, nb) ->
  k = reflect.Invalid \/ reflect.Value_IsValid fv = true ->
  let p := length (mem st) in
  let alt := if (String.length altName =? 0)%nat then fieldName else altName in
  let st1 := (ReportError eti f fieldName altName tg st).2 in
  let st2 := (ReportValidationErrors rn ran [ptr_fieldError (Some p)]
                {| mem := mem st1; self := B |}).2 in
  exists e,
    mem st2 !! p = Some e /\
    ns e = (slNs B +:+ (slNs (self st) +:+ fieldName)) +:+ fieldName /\
    structNs e = (slStructNs B +:+ (slStructNs (self st) +:+ alt)) +:+ alt /\
    errs (self st2) = errs B ++ [ptr_fieldError (Some p)].
Proof.
  intros Hx Hk p alt st1 st2.
  destruct (ReportError_Ok eti st f fieldName altName tg fv k nb Hx Hk)
    as (e & Hrun & _ & _ & _ & _ & Hns & Hf & Hsf & Hsns & _).
  assert (mem st1 !! p = Some e) as He.
  { unfold st1. rewrite Hrun. simpl. by apply list_lookup_middle. }
  unfold st2, ReportValidationErrors. simpl. unfold bind.
  rewrite (merge_one_record {| mem := mem st1; self := B |} p e He). simpl.
  eexists. split.
  { apply list_lookup_insert_eq. by eapply lookup_lt_Some. }
  simpl. rewrite Hns, Hf, Hsns, Hsf. done.
Qed.

Lemma ReportError_then_ReportValidationErrors_witness :
  let st1 := (ReportError Spec.extractTypeInternal (Some name_pointer)
                "Name" "" "required"
                {| mem := []; self := context_at "Customer." "Customer." |}).2 in
  let st2 := (ReportValidationErrors "" "" [ptr_fieldError (Some 0)]
                {| mem := mem st1; self := context_at "Order." "Order." |}).2 in
  exists e,
    mem st2 !! 0 = Some e /\
    ns e = ("Order." +:+ ("Customer." +:+ "Name")) +:+ "Name" /\
    structNs e = ("Order." +:+ ("Customer." +:+ "Name")) +:+ "Name" /\
    errs (self st2) = [] ++ [ptr_fieldError (Some 0)].
Proof.
  apply (ReportError_then_ReportValidationErrors Spec.extractTypeInternal
           {| mem := []; self := context_at "Customer." "Customer." |}
           (Some name_pointer) "Name" "" "required" "" ""
           (reflect.data_Value string_type "Joe") reflect.String true
           (context_at "Order." "Order.")).
  - reflexivity.
  - right. reflexivity.
Defined.

(** *** The namespaces of the entries *)

Lemma append_assoc (s1 s2 s3 : string) : (s1 +:+ s2) +:+ s3 = s1 +:+ (s2 +:+ s3).
Proof.
  induction s1 as [|a s1 IH]; [done|].
  change (String a ((s1 +:+ s2) +:+ s3) = String a (s1 +:+ (s2 +:+ s3))).
  by rewrite IH.
Qed.

Lemma spliced_under s1 s2 (r : fieldError) :
  under s1 (ns (spliced s1 s2 r)) /\ under s2 (structNs (spliced s1 s2 r)).
Proof.
  split; simpl; eexists; apply append_assoc.
Qed.

Lemma merge_all_namespaced (batch : ValidationErrors) (st : state) :
  namespaced st -> namespaced (merge_all batch st).2.
Proof.
  revert st. induction batch as [|x b IH]; intros st Hn; [done|].
  simpl. unfold bind. destruct (is_record (mem st) x) eqn:Hx.
  - apply is_record_lookup in Hx as (l & r & -> & Hr).
    rewrite (merge_one_record _ _ _ Hr). apply IH.
    pose proof (lookup_lt_Some _ _ _ Hr) as Hl.
    unfold namespaced in *. simpl. apply Forall_app. split.
    + eapply Forall_impl; [exact Hn|]. intros [|[l'|]|]; simpl; try done.
      destruct (decide (l = l')) as [<-|Hne].
      * rewrite list_lookup_insert_eq by done. intros _. apply spliced_under.
      * by rewrite list_lookup_insert_ne.
    + apply Forall_singleton. rewrite list_lookup_insert_eq by done.
      apply spliced_under.
  - by destruct (merge_one_panics _ _ Hx) as (p & -> & _).
Qed.

Lemma do_call_namespaced
    (eti : validate -> reflect.Value -> bool ->
           result (reflect.Value * reflect.Kind * bool))
    (c : call) (st : state) :
  namespaced st -> namespaced (do_call eti c st).2.
Proof.
  intros Hn. destruct c as [f n a t|rn ran b]; simpl;
    [|by apply merge_all_namespaced].
  pose proof (ReportError_cases eti st f n a t) as H.
  destruct (eti _ _ _) as [[[fv k] nb]|p]; [|by rewrite H].
  destruct (_ || _); [|by rewrite H].
  destruct H as (e & -> & _ & _ & Hns & Hsns).
  unfold namespaced in *. simpl. apply Forall_app. split.
  - eapply Forall_impl; [exact Hn|]. intros [|[l'|]|]; simpl; try done.
    destruct (mem st !! l') as [r|] eqn:Hr; [|done].
    by rewrite (lookup_app_l_Some _ _ _ _ Hr).
  - apply Forall_singleton. rewrite list_lookup_middle by done.
    split; eexists; [exact Hns|exact Hsns].
Qed.

(** X12: in a context whose namespaces stay put, as between the entry into a
    callback and its return, the entries of [errs] keep pointing to
    records whose namespace starts with the display namespace of the
    context and whose struct namespace starts with its actual namespace:
    [ReportError] makes such a record, [ReportValidationErrors] turns
    every record it is handed into one, and neither undoes it, however
    the sequence of calls ends. *)
Theorem entries_stay_under_context
    (eti : validate -> reflect.Value -> bool ->
           result (reflect.Value * reflect.Kind * bool))
    (cs : list call) (st : state) :
  namespaced st -> namespaced (do_calls eti cs st).2.
Proof.
  revert st. induction cs as [|c cs IH]; intros st Hn; [done|].
  simpl. unfold bind. pose proof (do_call_namespaced eti c st Hn) as Hc.
  destruct (do_call eti c st) as [[[]|p] s1]; [by apply IH|done].
Qed.

Lemma entries_stay_under_context_witness :
  namespaced
    (do_calls Spec.extractTypeInternal
       [call_ReportValidationErrors "Customer." "Customer." (pointers [0; 1; 0]);
        call_ReportError (Some name_pointer) "Name" "name" "required";
        call_ReportValidationErrors "" "" [ptr_fieldError (Some 2); nil_FieldError]]
       order_state).2.
Proof.
  apply (entries_stay_under_context Spec.extractTypeInternal _ order_state).
  constructor.
Defined.

(** X3: with an [altName] that is not empty, the record [ReportError]
    appends has [altName] on the struct side and [fieldName] on the
    display side, in the field names as in the namespaces; its [tag] and
    [actualTag] are both the tag passed and its [param] is empty. *)
Theorem ReportError_altName_names_the_struct_side
    (eti : validate -> reflect.Value -> bool ->
           result (reflect.Value * reflect.Kind * bool))
    (st : state) (f : reflect.any) (fieldName altName tg : string)
    (fv : reflect.Value) (k : reflect.Kind) (nb : bool) :
  altName <> "" ->
  eti (self st) (reflect.ValueOf f) false = Ok (fv, k, nb) ->
  k = reflect.Invalid \/ reflect.Value_IsValid fv = true ->
  exists e,
    ReportError eti f fieldName altName tg st =
      (Ok tt, {| mem := mem st ++ [e];
                 self := set_errs (errs (self st) ++
                                   [ptr_fieldError (Some (length (mem st)))])
                                  (self st) |}) /\
    field e = fieldName /\ ns e = slNs (self st) +:+ fieldName /\
    structField e = altName /\ structNs e = slStructNs (self st) +:+ altName /\
    tag e = tg /\ actualTag e = tg /\ param e = "".
Proof.
  intros Ha Hx Hk.
  destruct (ReportError_Ok eti st f fieldName altName tg fv k nb Hx Hk)
    as (e & Hrun & Htag & Hatag & Hparam & _ & Hns & Hf & Hsf & Hsns & _).
  assert ((String.length altName =? 0)%nat = false) as Hlen.
  { destruct altName; [done|reflexivity]. }
  rewrite Hlen in Hsf. exists e. rewrite Hsns, Hsf. by repeat split.
Qed.

Lemma ReportError_altName_names_the_struct_side_witness :
  exists e,
    ReportError Spec.extractTypeInternal (Some name_pointer) "name" "Name" "required"
      order_state =
      (Ok tt, {| mem := mem order_state ++ [e];
                 self := set_errs [ptr_fieldError (Some 2)] (self order_state) |}) /\
    field e = "name" /\ ns e = "Order." +:+ "name" /\
    structField e = "Name" /\ structNs e = "Order." +:+ "Name" /\
    tag e = "required" /\ actualTag e = "required" /\ param e = "".
Proof.
  apply (ReportError_altName_names_the_struct_side Spec.extractTypeInternal
           order_state (Some name_pointer) "name" "Name" "required"
           (reflect.data_Value string_type "Joe") reflect.String true).
  - discriminate.
  - reflexivity.
  - right. reflexivity.
Defined.
